(** * Session layer of the Steam protocol client (protocol/protocol_client.py)

    A shallow embedding of [translate_error] and of the [ProtocolClient]
    handlers, with the properties of the error classifier, the
    authentication handshake, the friend reconciliation, the licence
    import, the lazy translation fill and the collections rendezvous. *)

From Stdlib Require Import ZArith List String Bool Lia.
From stdpp Require Import base decidable option list strings gmap sets fin_sets fin_maps.

Open Scope Z_scope.

(** ** Enumerations of protocol/consts.py *)

Module EResult.

(** Modelled from the spec: protocol/consts.py, which declares the enumeration
    [EResult], is not part of the sources.  The spec describes a Result Code
    as an enumerated outcome, success or one of about thirty failure reasons.
    The members are those that protocol_client.py names, under the names it
    uses; [Other v] stands for every member that the file never names, [v]
    being its numeric value.  Distinct members are distinct values. *)
Inductive t : Set :=
  | OK
  | AccountNotFound
  | InvalidSteamID
  | InvalidLoginAuthCode
  | AccountLogonDeniedNoMailSent
  | AccountLoginDeniedNeedTwoFactor
  | ConnectFailed
  | IOFailure
  | RemoteDisconnect
  | Busy
  | ServiceUnavailable
  | Pending
  | IPNotFound
  | TryAnotherCM
  | Cancelled
  | Timeout
  | RateLimitExceeded
  | LimitExceeded
  | Suspended
  | AccountLocked
  | AccountLogonDeniedVerifiedEmailRequired
  | Banned
  | AccessDenied
  | InsufficientPrivilege
  | LogonSessionReplaced
  | Blocked
  | Ignored
  | AccountDisabled
  | AccountNotFeatured
  | AccountLogonDenied
  | DataCorruption
  | DiskFull
  | RemoteCallFailed
  | RemoteFileConflict
  | BadResponse
  | Other (value : Z).

#[global] Instance eq_dec : EqDecision t.
Proof. solve_decision. Defined.

End EResult.

Module EFriendRelationship.

(** Modelled from the spec: the enumeration [EFriendRelationship] of
    protocol/consts.py is not part of the sources.  The spec gives a
    relationship state as one of None, Friend or another state; [Other v]
    stands for every member besides [None_] and [Friend]. *)
Inductive t : Set :=
  | None_
  | Friend
  | Other (value : Z).

#[global] Instance eq_dec : EqDecision t.
Proof. solve_decision. Defined.

End EFriendRelationship.

Module EPersonaState.

(** Modelled from the spec: the enumeration [EPersonaState] of
    protocol/consts.py is not part of the sources; the session only ever
    names its member [Invisible]. *)
Inductive t : Set :=
  | Invisible
  | Other (value : Z).

#[global] Instance eq_dec : EqDecision t.
Proof. solve_decision. Defined.

End EPersonaState.

(** ** The error classes of galaxy.api.errors and Python values built from them *)

Module errors.

Inductive cls : Set :=
  | InvalidCredentials
  | NetworkError
  | BackendNotAvailable
  | BackendTimeout
  | TemporaryBlocked
  | Banned
  | AccessDenied
  | BackendError
  | UnknownError.

#[global] Instance eq_dec : EqDecision cls.
Proof. solve_decision. Defined.

End errors.

(** The dictionary [{"result": result}] that [translate_error] builds. *)
Definition ErrData : Set := list (string * EResult.t).

(** What an expression of protocol_client.py that denotes an error evaluates
    to: an instance [cls(data)] of an error class, or the class object. *)
Inductive PyValue : Set :=
  | ErrInstance (c : errors.cls) (data : option ErrData)
  | ErrClass (c : errors.cls).

(** Exceptions that the modelled code can raise. *)
Inductive Exn : Set :=
  | AssertionError
  | InvalidStateError
  | TypeError
  | IndexError
  | GalaxyError (c : errors.cls) (data : option ErrData).

(** The outcome of a call that either returns a value or raises. *)
Inductive Result (A : Type) : Type :=
  | Returns (a : A)
  | Raises (e : Exn).
Arguments Returns {A} a.
Arguments Raises {A} e.

#[global] Instance PyValue_eq_dec : EqDecision PyValue.
Proof. solve_decision. Defined.

#[global] Instance Exn_eq_dec : EqDecision Exn.
Proof. solve_decision. Defined.

(** [x in (a, b, ...)]: some element of the tuple equals [x]. *)
Definition py_in {A} `{EqDecision A} (x : A) (l : list A) : bool :=
  existsb (fun y => bool_decide (x = y)) l.

(** The error class of a value, whether it is an instance or the class. *)
Definition class_of (v : PyValue) : errors.cls :=
  match v with
  | ErrInstance c _ => c
  | ErrClass c => c
  end.

(** The result code a value carries under the key ["result"] of its data. *)
Definition carried_code (v : PyValue) : option EResult.t :=
  match v with
  | ErrInstance _ (Some d) => snd <$> List.find (fun kv => String.eqb (fst kv) "result"%string) d
  | _ => None
  end.

(** The statement [raise v]: an instance is raised as it is, a class is
    instantiated without arguments, which leaves its data [None]. *)
Definition py_raise (v : PyValue) : Exn :=
  match v with
  | ErrInstance c d => GalaxyError c d
  | ErrClass c => GalaxyError c None
  end.

(** The error class of a raised exception, when it is one of galaxy.api.errors. *)
Definition exn_class (e : Exn) : option errors.cls :=
  match e with
  | GalaxyError c _ => Some c
  | _ => None
  end.

(** ** translate_error *)

Definition translate_error (result : EResult.t) : Result PyValue :=
  if bool_decide (result = EResult.OK) then Raises AssertionError else
  let data : ErrData := [("result"%string, result)] in
  if py_in result [
    EResult.AccountNotFound;
    EResult.InvalidSteamID;
    EResult.InvalidLoginAuthCode;
    EResult.AccountLogonDeniedNoMailSent;
    EResult.AccountLoginDeniedNeedTwoFactor
  ] then Returns (ErrInstance errors.InvalidCredentials (Some data)) else
  if py_in result [
    EResult.ConnectFailed;
    EResult.IOFailure;
    EResult.RemoteDisconnect
  ] then Returns (ErrInstance errors.NetworkError (Some data)) else
  if py_in result [
    EResult.Busy;
    EResult.ServiceUnavailable;
    EResult.Pending;
    EResult.IPNotFound;
    EResult.TryAnotherCM;
    EResult.Cancelled
  ] then Returns (ErrInstance errors.BackendNotAvailable (Some data)) else
  if bool_decide (result = EResult.Timeout)
  then Returns (ErrInstance errors.BackendTimeout (Some data)) else
  if py_in result [
    EResult.RateLimitExceeded;
    EResult.LimitExceeded;
    EResult.Suspended;
    EResult.AccountLocked;
    EResult.AccountLogonDeniedVerifiedEmailRequired
  ] then Returns (ErrInstance errors.TemporaryBlocked (Some data)) else
  if bool_decide (result = EResult.Banned)
  then Returns (ErrInstance errors.Banned (Some data)) else
  if py_in result [
    EResult.AccessDenied;
    EResult.InsufficientPrivilege;
    EResult.LogonSessionReplaced;
    EResult.Blocked;
    EResult.Ignored;
    EResult.AccountDisabled;
    EResult.AccountNotFeatured;
    EResult.AccountLogonDenied
  ] then Returns (ErrInstance errors.AccessDenied (Some data)) else
  if py_in result [
    EResult.DataCorruption;
    EResult.DiskFull;
    EResult.RemoteCallFailed;
    EResult.RemoteFileConflict;
    EResult.BadResponse
  ] then Returns (ErrClass errors.BackendError) else
  Returns (ErrInstance errors.UnknownError (Some data)).

(** The classifier table as the specification lists it, row by row.  The
    table spells the fifth member of its first row AccountLogonDeniedNeedTwoFactor;
    it is the member that the code names AccountLoginDeniedNeedTwoFactor. *)
Definition classifier_table : list (list EResult.t * errors.cls) := [
  ([EResult.AccountNotFound; EResult.InvalidSteamID; EResult.InvalidLoginAuthCode;
    EResult.AccountLogonDeniedNoMailSent; EResult.AccountLoginDeniedNeedTwoFactor],
   errors.InvalidCredentials);
  ([EResult.ConnectFailed; EResult.IOFailure; EResult.RemoteDisconnect],
   errors.NetworkError);
  ([EResult.Busy; EResult.ServiceUnavailable; EResult.Pending; EResult.IPNotFound;
    EResult.TryAnotherCM; EResult.Cancelled],
   errors.BackendNotAvailable);
  ([EResult.Timeout], errors.BackendTimeout);
  ([EResult.RateLimitExceeded; EResult.LimitExceeded; EResult.Suspended;
    EResult.AccountLocked; EResult.AccountLogonDeniedVerifiedEmailRequired],
   errors.TemporaryBlocked);
  ([EResult.Banned], errors.Banned);
  ([EResult.AccessDenied; EResult.InsufficientPrivilege; EResult.LogonSessionReplaced;
    EResult.Blocked; EResult.Ignored; EResult.AccountDisabled;
    EResult.AccountNotFeatured; EResult.AccountLogonDenied],
   errors.AccessDenied);
  ([EResult.DataCorruption; EResult.DiskFull; EResult.RemoteCallFailed;
    EResult.RemoteFileConflict; EResult.BadResponse],
   errors.BackendError)
].

(** The codes of the table's rows, and whether a code is in some row. *)
Definition listed_codes : list EResult.t := concat (map fst classifier_table).

Definition listed (code : EResult.t) : bool := py_in code listed_codes.

(** ** The state the session works on

    The [ProtocolClient] object, the [ProtobufClient] it owns and the caches
    it was given are shared mutable objects; the session's coroutines are
    modelled as programs over one record that holds them all. *)

(** A user, application or package identifier is a Python integer. *)
Definition user_id : Set := Z.
Definition app_id : Set := Z.
Definition package_id_t : Set := Z.

(** A localization bundle and the callable given as [auth_lost_handler] are
    opaque to the session: it stores them and passes them on. *)
Definition Bundle : Set := string.
Definition Handler : Set := nat.

(** References to dictionary objects and to futures. *)
Definition loc : Set := nat.
Definition fut : Set := nat.

(** The calls the session makes on its collaborators, whose code is outside
    protocol_client.py: requests sent through the [ProtobufClient], calls on
    the friends cache and on the games cache, and the invocation of the
    auth-lost handler.  Each is recorded with its arguments. *)
Inductive Call : Set :=
  | log_on (steam_id miniprofile_id : Z) (account_name token : string)
  | set_persona_state (state : EPersonaState.t)
  | get_friends_statuses
  | get_user_infos (ids : list user_id) (flags : Z)
  | get_packages_info (ids : list package_id_t)
  | get_presence_localization (appid : app_id)
  | friends_cache_add (uid : user_id)
  | friends_cache_remove (uid : user_id)
  | friends_cache_reset (ids : list user_id)
  | games_cache_start_packages_import (ids : list package_id_t)
  | auth_lost_handler_call (h : Handler) (error : PyValue).

#[global] Instance Call_eq_dec : EqDecision Call.
Proof. solve_decision. Defined.

(** Whether a call is a request sent through the [ProtobufClient]. *)
Definition is_request (c : Call) : bool :=
  match c with
  | log_on _ _ _ _ | set_persona_state _ | get_friends_statuses
  | get_user_infos _ _ | get_packages_info _ | get_presence_localization _ => true
  | _ => false
  end.

(** Entries of [ProtobufClient.job_list]. *)
Inductive Job : Set :=
  | import_game_stats_job (game_id : Z)
  | import_game_times_job
  | import_collections_job.

Record State : Type := mkState {
  (** every call made on a collaborator so far, oldest first *)
  calls : list Call;
  (** [_protobuf_client.job_list] *)
  job_list : list Job;
  (** [_protobuf_client.collections['event']], set or not *)
  collections_event : bool;
  (** [_protobuf_client.collections['collections']], a reference to a dict *)
  collections_collections : loc;
  (** the dictionary objects *)
  heap : gmap loc (gmap string Z);
  (** the members of [_friends_cache] *)
  friends_cache : gset user_id;
  (** [_translations_cache] *)
  translations_cache : gmap app_id Bundle;
  (** [_auth_lost_handler] *)
  _auth_lost_handler : option Handler;
  (** [_login_future], a reference to a future *)
  _login_future : option fut;
  (** the futures: pending ([None]) or done with a result *)
  futures : gmap fut (option EResult.t)
}.

Definition set_calls (v : list Call) (s : State) : State :=
  mkState v (job_list s) (collections_event s) (collections_collections s) (heap s)
    (friends_cache s) (translations_cache s) (_auth_lost_handler s) (_login_future s)
    (futures s).
Definition set_job_list (v : list Job) (s : State) : State :=
  mkState (calls s) v (collections_event s) (collections_collections s) (heap s)
    (friends_cache s) (translations_cache s) (_auth_lost_handler s) (_login_future s)
    (futures s).
Definition set_collections_event (v : bool) (s : State) : State :=
  mkState (calls s) (job_list s) v (collections_collections s) (heap s)
    (friends_cache s) (translations_cache s) (_auth_lost_handler s) (_login_future s)
    (futures s).
Definition set_collections_collections (v : loc) (s : State) : State :=
  mkState (calls s) (job_list s) (collections_event s) v (heap s)
    (friends_cache s) (translations_cache s) (_auth_lost_handler s) (_login_future s)
    (futures s).
Definition set_heap (v : gmap loc (gmap string Z)) (s : State) : State :=
  mkState (calls s) (job_list s) (collections_event s) (collections_collections s) v
    (friends_cache s) (translations_cache s) (_auth_lost_handler s) (_login_future s)
    (futures s).
Definition set_friends_cache (v : gset user_id) (s : State) : State :=
  mkState (calls s) (job_list s) (collections_event s) (collections_collections s) (heap s)
    v (translations_cache s) (_auth_lost_handler s) (_login_future s)
    (futures s).
Definition set_translations_cache (v : gmap app_id Bundle) (s : State) : State :=
  mkState (calls s) (job_list s) (collections_event s) (collections_collections s) (heap s)
    (friends_cache s) v (_auth_lost_handler s) (_login_future s)
    (futures s).
Definition set_auth_lost_handler (v : option Handler) (s : State) : State :=
  mkState (calls s) (job_list s) (collections_event s) (collections_collections s) (heap s)
    (friends_cache s) (translations_cache s) v (_login_future s)
    (futures s).
Definition set_login_future (v : option fut) (s : State) : State :=
  mkState (calls s) (job_list s) (collections_event s) (collections_collections s) (heap s)
    (friends_cache s) (translations_cache s) (_auth_lost_handler s) v
    (futures s).
Definition set_futures (v : gmap fut (option EResult.t)) (s : State) : State :=
  mkState (calls s) (job_list s) (collections_event s) (collections_collections s) (heap s)
    (friends_cache s) (translations_cache s) (_auth_lost_handler s) (_login_future s)
    v.

(** The requests among the calls made so far. *)
Definition requests (s : State) : list Call := List.filter is_request (calls s).

(** ** Coroutines

    A coroutine of the session is a program that reads and writes the state,
    may raise, and may suspend at an [await] on the collections event or on a
    future.  Awaited calls on the collaborators are recorded and return. *)
Inductive Prog (A : Type) : Type :=
  | Ret (a : A)
  | Throw (e : Exn)
  | Get (k : State -> Prog A)
  | Put (s : State) (k : Prog A)
  | AwaitEvent (k : Prog A)
  | AwaitFuture (f : fut) (k : EResult.t -> Prog A).
Arguments Ret {A} a.
Arguments Throw {A} e.
Arguments Get {A} k.
Arguments Put {A} s k.
Arguments AwaitEvent {A} k.
Arguments AwaitFuture {A} f k.

Fixpoint bind {A B} (p : Prog A) (q : A -> Prog B) : Prog B :=
  match p with
  | Ret a => q a
  | Throw e => Throw e
  | Get k => Get (fun s => bind (k s) q)
  | Put s k => Put s (bind k q)
  | AwaitEvent k => AwaitEvent (bind k q)
  | AwaitFuture f k => AwaitFuture f (fun r => bind (k r) q)
  end.

#[global] Instance Prog_ret : MRet Prog := @Ret.
#[global] Instance Prog_bind : MBind Prog := fun A B q p => bind p q.

Definition get : Prog State := Get Ret.
Definition modify (f : State -> State) : Prog unit := Get (fun s => Put (f s) (Ret tt)).

(** The statement [assert b]. *)
Definition assert (b : bool) : Prog unit :=
  if b then Ret tt else Throw AssertionError.

(** A call on a collaborator: recorded, and control comes back. *)
Definition call (c : Call) : Prog unit :=
  modify (fun s => set_calls (calls s ++ [c]) s).

(** How a coroutine leaves the processor: it returned, it raised, or it is
    suspended with the rest of its body, to be resumed once the event is set
    or once the future has a result. *)
Inductive Outcome (A : Type) : Type :=
  | Done (a : A)
  | Failed (e : Exn)
  | WaitingEvent (k : Prog A)
  | WaitingFuture (f : fut) (k : EResult.t -> Prog A).
Arguments Done {A} a.
Arguments Failed {A} e.
Arguments WaitingEvent {A} k.
Arguments WaitingFuture {A} f k.

(** Runs a coroutine up to its end or to its next suspension.  [Event.wait]
    returns at once when the event is set, and awaiting a future that is done
    yields its result at once. *)
Fixpoint exec {A} (p : Prog A) (s : State) : Outcome A * State :=
  match p with
  | Ret a => (Done a, s)
  | Throw e => (Failed e, s)
  | Get k => exec (k s) s
  | Put s' k => exec k s'
  | AwaitEvent k =>
      if collections_event s then exec k s else (WaitingEvent k, s)
  | AwaitFuture f k =>
      match futures s !! f with
      | Some (Some r) => exec (k r) s
      | _ => (WaitingFuture f k, s)
      end
  end.

(** ** Operations of the collaborators, as far as the session relies on them *)

(** Modelled from the spec: friends_cache.py is not part of the sources.  The
    spec describes the Friends Cache as a set of friend user identifiers that
    supports add, remove and reset-to-set; the user-info records attached to
    the members play no part in the relationship handler and are left out.
    Each operation is also recorded among the calls. *)
Definition friends_cache_do_add (uid : user_id) : Prog unit :=
  call (friends_cache_add uid);;
  modify (fun s => set_friends_cache (friends_cache s ∪ {[uid]}) s).

Definition friends_cache_do_remove (uid : user_id) : Prog unit :=
  call (friends_cache_remove uid);;
  modify (fun s => set_friends_cache (friends_cache s ∖ {[uid]}) s).

Definition friends_cache_do_reset (ids : list user_id) : Prog unit :=
  call (friends_cache_reset ids);;
  modify (fun s => set_friends_cache (list_to_set ids) s).

(** [loop.create_future()]: a new pending future. *)
Definition create_future : Prog fut :=
  s ← get;
  let f := fresh (dom (futures s)) in
  modify (set_futures (<[f := None]> (futures s)));;
  Ret f.

(** [Future.set_result]: a future that is already done refuses a result. *)
Definition set_result (f : fut) (result : EResult.t) : Prog unit :=
  s ← get;
  match futures s !! f with
  | Some None => modify (set_futures (<[f := Some result]> (futures s)))
  | _ => Throw InvalidStateError
  end.

(** [d.copy()]: a new dictionary object with the entries of [d]. *)
Definition dict_copy (d : loc) : Prog loc :=
  s ← get;
  let l := fresh (dom (heap s)) in
  modify (set_heap (<[l := default ∅ (heap s !! d)]> (heap s)));;
  Ret l.

(** [dict()]: a new empty dictionary object. *)
Definition dict_new : Prog loc :=
  s ← get;
  let l := fresh (dom (heap s)) in
  modify (set_heap (<[l := ∅]> (heap s)));;
  Ret l.

(** ** ProtocolClient *)

Definition _STATUS_FLAG : Z := 1106.

(** The body of [authenticate] after [result = await self._login_future]. *)
Definition authenticate_resume (auth_lost_handler : Handler) (result : EResult.t)
  : Prog unit :=
  if bool_decide (result = EResult.OK) then
    modify (set_auth_lost_handler (Some auth_lost_handler))
  else
    match translate_error result with
    | Returns v => Throw (py_raise v)
    | Raises e => Throw e
    end.

Definition authenticate (steam_id miniprofile_id : Z) (account_name token : string)
    (auth_lost_handler : Handler) : Prog unit :=
  f ← create_future;
  modify (set_login_future (Some f));;
  call (log_on steam_id miniprofile_id account_name token);;
  s ← get;
  match _login_future s with
  | Some f' => AwaitFuture f' (authenticate_resume auth_lost_handler)
  | None => Throw TypeError
  end.

(** The body of [retrieve_collections] after the wait on the event. *)
Definition retrieve_collections_resume : Prog loc :=
  s ← get;
  collections ← dict_copy (collections_collections s);
  modify (set_collections_event false);;
  d ← dict_new;
  modify (set_collections_collections d);;
  Ret collections.

Definition retrieve_collections : Prog loc :=
  modify (fun s => set_job_list (job_list s ++ [import_collections_job]) s);;
  AwaitEvent retrieve_collections_resume.

Definition _log_on_handler (result : EResult.t) : Prog unit :=
  s ← get;
  match _login_future s with
  | None => Throw AssertionError
  | Some f => set_result f result
  end.

Definition _log_off_handler (result : EResult.t) : Prog unit :=
  s ← get;
  match _auth_lost_handler s with
  | Some h =>
      match translate_error result with
      | Returns v => call (auth_lost_handler_call h v)
      | Raises e => Throw e
      end
  | None => Ret tt
  end.

(** The [for] loop of [_relationship_handler] over [friends.items()], with
    the two lists it fills. *)
Fixpoint relationship_loop (incremental : bool)
    (items : list (user_id * EFriendRelationship.t))
    (initial_friends new_friends : list user_id) : Prog (list user_id * list user_id) :=
  match items with
  | [] => Ret (initial_friends, new_friends)
  | (uid, relationship) :: rest =>
      if bool_decide (relationship = EFriendRelationship.Friend) then
        if incremental then
          friends_cache_do_add uid;;
          relationship_loop incremental rest initial_friends (new_friends ++ [uid])
        else
          relationship_loop incremental rest (initial_friends ++ [uid]) new_friends
      else if bool_decide (relationship = EFriendRelationship.None_) then
        assert incremental;;
        friends_cache_do_remove uid;;
        relationship_loop incremental rest initial_friends new_friends
      else
        relationship_loop incremental rest initial_friends new_friends
  end.

(** [friends] is a dict; its items come in insertion order. *)
Definition _relationship_handler (incremental : bool)
    (friends : list (user_id * EFriendRelationship.t)) : Prog unit :=
  '(initial_friends, new_friends) ← relationship_loop incremental friends [] [];
  (if negb incremental then
     friends_cache_do_reset initial_friends;;
     call (set_persona_state EPersonaState.Invisible);;
     call get_friends_statuses;;
     call (get_user_infos initial_friends _STATUS_FLAG)
   else Ret tt);;
  match new_friends with
  | [] => Ret tt
  | _ :: _ =>
      call get_friends_statuses;;
      call (get_user_infos new_friends _STATUS_FLAG)
  end.

(** A licence of a batch; [int] is the identity on an integer. *)
Record License : Set := mkLicense { package_id : Z }.

Definition int (z : Z) : Z := z.

Definition _license_import_handler (licenses : list License) : Prog unit :=
  let package_ids :=
    fold_left (fun acc license => acc ++ [int (package_id license)]) licenses [] in
  call (games_cache_start_packages_import package_ids);;
  call (get_packages_info package_ids).

(** [translations] defaults to [None]; [None], the empty list and the
    integer zero are false in a condition. *)
Definition _translations_handler (appid : app_id) (translations : option (list Bundle))
  : Prog unit :=
  s ← get;
  if negb (appid =? 0) && negb (bool_decide (default [] translations = [])) then
    match default [] translations with
    | first :: _ => modify (set_translations_cache (<[appid := first]> (translations_cache s)))
    | [] => Throw IndexError
    end
  else if bool_decide (appid ∉ dom (translations_cache s)) then
    call (get_presence_localization appid)
  else Ret tt.

(** ** Values used to state the properties *)

(** The identifiers of the Friend-state events of a batch, in batch order. *)
Definition friend_ids (friends : list (user_id * EFriendRelationship.t)) : list user_id :=
  map fst (List.filter (fun ev => bool_decide (snd ev = EFriendRelationship.Friend)) friends).

(** The calls that an incremental batch makes on the friends cache. *)
Definition incremental_calls (friends : list (user_id * EFriendRelationship.t)) : list Call :=
  flat_map (fun ev =>
    match snd ev with
    | EFriendRelationship.Friend => [friends_cache_add (fst ev)]
    | EFriendRelationship.None_ => [friends_cache_remove (fst ev)]
    | EFriendRelationship.Other _ => []
    end) friends.

(** The members of the friends cache after an incremental batch. *)
Definition incremental_cache (friends : list (user_id * EFriendRelationship.t))
    (cache : gset user_id) : gset user_id :=
  fold_left (fun c ev =>
    match snd ev with
    | EFriendRelationship.Friend => c ∪ {[fst ev]}
    | EFriendRelationship.None_ => c ∖ {[fst ev]}
    | EFriendRelationship.Other _ => c
    end) friends cache.

(** A session right after [__init__], with one empty collections dictionary
    and empty caches. *)
Definition new_session : State :=
  mkState [] [] false 0%nat {[0%nat := ∅]} ∅ ∅ None None ∅.

(** ** The job triggers of ProtocolClient *)

(** The [for] loop of [import_game_stats]: one job per game identifier, in
    the order of [game_ids]. *)
Fixpoint import_game_stats (game_ids : list Z) : Prog unit :=
  match game_ids with
  | [] => Ret tt
  | game_id :: rest =>
      modify (fun s => set_job_list (job_list s ++ [import_game_stats_job game_id]) s);;
      import_game_stats rest
  end.

Definition import_game_times : Prog unit :=
  modify (fun s => set_job_list (job_list s ++ [import_game_times_job]) s).

(** The calls that only the full resynchronisation of the friends makes. *)
Definition is_resync_call (c : Call) : bool :=
  match c with
  | friends_cache_reset _ | set_persona_state _ => true
  | _ => false
  end.

(** The five codes of the last tuple of [translate_error]. *)
Definition backend_error_codes : list EResult.t :=
  [EResult.DataCorruption; EResult.DiskFull; EResult.RemoteCallFailed;
   EResult.RemoteFileConflict; EResult.BadResponse].

(** ** The error classifier *)

Lemma translate_error_rows_values :
  Forall (fun row => Forall (fun code =>
    translate_error code
    = Returns (if bool_decide (snd row = errors.BackendError)
               then ErrClass errors.BackendError
               else ErrInstance (snd row) (Some [("result"%string, code)])))
    (fst row)) classifier_table.
Proof.
  unfold classifier_table.
  repeat (cbn [fst snd]; first [reflexivity | constructor]).
Qed.

Lemma listed_elem (code : EResult.t) :
  listed code = true ->
  exists codes cat, (codes, cat) ∈ classifier_table /\ code ∈ codes.
Proof.
  unfold listed, py_in. rewrite existsb_exists.
  intros (y & Hy & Heq). apply bool_decide_eq_true in Heq. subst y.
  unfold listed_codes in Hy. apply in_concat in Hy as (codes & Hc & Hin).
  apply in_map_iff in Hc as ([codes' cat] & <- & Hrow).
  exists codes', cat. split; apply list_elem_of_In; assumption.
Qed.

Lemma unlisted_unknown (code : EResult.t) :
  code <> EResult.OK -> listed code = false ->
  translate_error code
  = Returns (ErrInstance errors.UnknownError (Some [("result"%string, code)])).
Proof.
  intros Hok Hl. destruct code; try congruence; try (vm_compute in Hl; discriminate).
  reflexivity.
Qed.

(** C1: for every result code in a row of the classifier table other than
    the [BackendError] row, [translate_error] returns an instance of the
    error class of that row, built from the data that holds the code; for
    every result code other than [OK] that is in no row it returns such an
    instance of [UnknownError].  At the codes of the [BackendError] row the
    code departs from the claim: what it returns is the class object, which
    is no error of that category and holds no data. *)
Theorem translate_error_rows :
  (forall codes cat code,
      (codes, cat) ∈ classifier_table -> code ∈ codes ->
      cat <> errors.BackendError ->
      translate_error code
      = Returns (ErrInstance cat (Some [("result"%string, code)])))
  /\ (forall codes code,
      (codes, errors.BackendError) ∈ classifier_table -> code ∈ codes ->
      translate_error code = Returns (ErrClass errors.BackendError)
      /\ forall data,
           translate_error code <> Returns (ErrInstance errors.BackendError data))
  /\ (forall code,
      code <> EResult.OK ->
      (forall codes cat, (codes, cat) ∈ classifier_table -> code ∉ codes) ->
      translate_error code
      = Returns (ErrInstance errors.UnknownError (Some [("result"%string, code)]))).
Proof.
  assert (Hrows : forall codes cat code,
            (codes, cat) ∈ classifier_table -> code ∈ codes ->
            translate_error code
            = Returns (if bool_decide (cat = errors.BackendError)
                       then ErrClass errors.BackendError
                       else ErrInstance cat (Some [("result"%string, code)]))).
  { intros codes cat code Hrow Hcode.
    pose proof translate_error_rows_values as H.
    rewrite Forall_forall in H. specialize (H _ Hrow). cbn [fst snd] in H.
    rewrite Forall_forall in H. exact (H _ Hcode). }
  split; [|split].
  - intros codes cat code Hrow Hcode Hcat.
    rewrite (Hrows _ _ _ Hrow Hcode).
    rewrite bool_decide_eq_false_2 by exact Hcat. reflexivity.
  - intros codes code Hrow Hcode.
    rewrite (Hrows _ _ _ Hrow Hcode). split; [reflexivity|].
    intros data H. discriminate H.
  - intros code Hok Hno. apply unlisted_unknown; [assumption|].
    destruct (listed code) eqn:Hl; [|reflexivity].
    apply listed_elem in Hl as (codes & cat & Hrow & Hin).
    exfalso. exact (Hno _ _ Hrow Hin).
Qed.

Lemma translate_error_rows_witness :
  translate_error EResult.Timeout
  = Returns (ErrInstance errors.BackendTimeout (Some [("result"%string, EResult.Timeout)]))
  /\ translate_error EResult.DataCorruption = Returns (ErrClass errors.BackendError)
  /\ translate_error (EResult.Other 2)
     = Returns (ErrInstance errors.UnknownError (Some [("result"%string, EResult.Other 2)])).
Proof.
  destruct translate_error_rows as (Hrow & Hbackend & Hother). split; [|split].
  - apply (Hrow [EResult.Timeout] errors.BackendTimeout EResult.Timeout).
    + unfold classifier_table. do 3 apply list_elem_of_further. apply list_elem_of_here.
    + apply list_elem_of_here.
    + discriminate.
  - apply (Hbackend backend_error_codes EResult.DataCorruption).
    + unfold classifier_table. do 7 apply list_elem_of_further. apply list_elem_of_here.
    + apply list_elem_of_here.
  - apply (Hother (EResult.Other 2)).
    + discriminate.
    + intros codes cat Hin Hc.
      assert (Hl : listed (EResult.Other 2) = true).
      { unfold listed, py_in. apply existsb_exists. exists (EResult.Other 2).
        split; [|apply bool_decide_eq_true; reflexivity].
        unfold listed_codes. apply in_concat. exists codes.
        split; [|apply list_elem_of_In; assumption].
        apply in_map_iff. exists (codes, cat). split; [reflexivity|].
        apply list_elem_of_In; assumption. }
      vm_compute in Hl. discriminate.
Defined.

(** C2: at [DataCorruption], as at the four other codes of its branch,
    [translate_error] returns the class [BackendError] itself: no instance
    is built and no result code is carried. *)
Theorem translate_error_backend_error_class :
  translate_error EResult.DataCorruption = Returns (ErrClass errors.BackendError)
  /\ carried_code (ErrClass errors.BackendError) = None
  /\ Forall (fun code => translate_error code = Returns (ErrClass errors.BackendError))
       [EResult.DataCorruption; EResult.DiskFull; EResult.RemoteCallFailed;
        EResult.RemoteFileConflict; EResult.BadResponse].
Proof.
  split; [reflexivity|]. split; [reflexivity|].
  repeat first [reflexivity | constructor].
Qed.

(** Every other code than [OK] outside that branch yields an instance
    that carries the code. *)
Lemma translate_error_carries_code (code : EResult.t) :
  code <> EResult.OK ->
  py_in code [EResult.DataCorruption; EResult.DiskFull; EResult.RemoteCallFailed;
              EResult.RemoteFileConflict; EResult.BadResponse] = false ->
  exists c, translate_error code = Returns (ErrInstance c (Some [("result"%string, code)]))
            /\ carried_code (ErrInstance c (Some [("result"%string, code)])) = Some code.
Proof.
  intros Hok Hb.
  destruct code; try congruence; try (vm_compute in Hb; discriminate);
    eexists; split; reflexivity.
Qed.

(** A code other than [OK] always yields a value. *)
Lemma translate_error_returns (code : EResult.t) :
  code <> EResult.OK -> exists v, translate_error code = Returns v.
Proof.
  intros Hok. destruct code; try congruence; eexists; reflexivity.
Qed.

(** ** Running coroutines *)

Lemma exec_bind {A B} (p : Prog A) (q : A -> Prog B) (s : State) :
  exec (p ≫= q) s
  = match exec p s with
    | (Done a, s') => exec (q a) s'
    | (Failed e, s') => (Failed e, s')
    | (WaitingEvent k, s') => (WaitingEvent (k ≫= q), s')
    | (WaitingFuture f k, s') => (WaitingFuture f (fun r => k r ≫= q), s')
    end.
Proof.
  revert s. induction p as [a|e|k IH|s' k IH|k IH|f k IH]; intros s; cbn.
  - reflexivity.
  - reflexivity.
  - apply IH.
  - apply IH.
  - destruct (collections_event s); [apply IH|reflexivity].
  - destruct (futures s !! f) as [[r|]|]; [apply IH|reflexivity|reflexivity].
Qed.

Lemma exec_call (c : Call) (s : State) :
  exec (call c) s = (Done tt, set_calls (calls s ++ [c]) s).
Proof. reflexivity. Qed.

(** ** The relationship handler *)

Section Relationship.

Import EFriendRelationship.

Lemma friend_ids_cons_friend uid rest :
  friend_ids ((uid, Friend) :: rest) = uid :: friend_ids rest.
Proof. reflexivity. Qed.

Lemma friend_ids_cons_none uid rest :
  friend_ids ((uid, None_) :: rest) = friend_ids rest.
Proof. reflexivity. Qed.

Lemma friend_ids_cons_other uid v rest :
  friend_ids ((uid, Other v) :: rest) = friend_ids rest.
Proof. reflexivity. Qed.

Lemma friend_ids_nil_iff friends :
  friend_ids friends = [] <-> forall uid, (uid, Friend) ∉ friends.
Proof.
  induction friends as [|[uid rel] rest IH].
  - split; [intros _ uid H; inversion H|reflexivity].
  - destruct rel as [| |v].
    + rewrite friend_ids_cons_none, IH. split.
      * intros H u Hu. apply elem_of_cons in Hu as [Hu|Hu]; [discriminate|].
        exact (H u Hu).
      * intros H u Hu. apply (H u). apply list_elem_of_further, Hu.
    + rewrite friend_ids_cons_friend. split; [discriminate|].
      intros H. exfalso. apply (H uid). apply list_elem_of_here.
    + rewrite friend_ids_cons_other, IH. split.
      * intros H u Hu. apply elem_of_cons in Hu as [Hu|Hu]; [discriminate|].
        exact (H u Hu).
      * intros H u Hu. apply (H u). apply list_elem_of_further, Hu.
Qed.

(** A full snapshot without None-state events: the loop collects the
    Friend-state identifiers and touches nothing. *)
Lemma relationship_loop_full friends initial_friends new_friends s :
  (forall uid, (uid, None_) ∉ friends) ->
  exec (relationship_loop false friends initial_friends new_friends) s
  = (Done (initial_friends ++ friend_ids friends, new_friends), s).
Proof.
  revert initial_friends. induction friends as [|[uid rel] rest IH];
    intros initial_friends Hnone.
  - cbn. rewrite app_nil_r. reflexivity.
  - assert (Hrest : forall u, (u, None_) ∉ rest).
    { intros u Hu. apply (Hnone u). apply list_elem_of_further, Hu. }
    destruct rel as [| |v].
    + exfalso. apply (Hnone uid). apply list_elem_of_here.
    + cbn [relationship_loop]. rewrite bool_decide_eq_true_2 by reflexivity.
      rewrite IH by assumption. rewrite friend_ids_cons_friend, <- app_assoc.
      reflexivity.
    + cbn [relationship_loop]. rewrite !bool_decide_eq_false_2 by discriminate.
      rewrite IH by assumption. reflexivity.
Qed.

(** A full snapshot with a None-state event: the assertion fails at the
    first such event, and nothing has been touched by then. *)
Lemma relationship_loop_full_none friends initial_friends new_friends s :
  (exists uid, (uid, None_) ∈ friends) ->
  exec (relationship_loop false friends initial_friends new_friends) s
  = (Failed AssertionError, s).
Proof.
  revert initial_friends. induction friends as [|[uid rel] rest IH];
    intros initial_friends [u Hu].
  - inversion Hu.
  - destruct rel as [| |v].
    + reflexivity.
    + apply elem_of_cons in Hu as [Hu|Hu]; [discriminate|].
      cbn [relationship_loop]. rewrite bool_decide_eq_true_2 by reflexivity.
      apply IH. exists u. exact Hu.
    + apply elem_of_cons in Hu as [Hu|Hu]; [discriminate|].
      cbn [relationship_loop]. rewrite !bool_decide_eq_false_2 by discriminate.
      apply IH. exists u. exact Hu.
Qed.

(** An incremental batch: the loop never fails; it adds and removes in batch
    order and collects the Friend-state identifiers. *)
Lemma relationship_loop_incremental friends initial_friends new_friends s :
  exec (relationship_loop true friends initial_friends new_friends) s
  = (Done (initial_friends, new_friends ++ friend_ids friends),
     set_friends_cache (incremental_cache friends (friends_cache s))
       (set_calls (calls s ++ incremental_calls friends) s)).
Proof.
  revert new_friends s. induction friends as [|[uid rel] rest IH];
    intros new_friends s.
  - cbn. rewrite !app_nil_r. destruct s; reflexivity.
  - destruct rel as [| |v].
    + change (exec (relationship_loop true ((uid, None_) :: rest)
                      initial_friends new_friends) s)
        with (exec (relationship_loop true rest initial_friends new_friends)
                (set_friends_cache (friends_cache s ∖ {[uid]})
                   (set_calls (calls s ++ [friends_cache_remove uid]) s))).
      rewrite IH. rewrite friend_ids_cons_none.
      destruct s; cbn. rewrite <- app_assoc. reflexivity.
    + change (exec (relationship_loop true ((uid, Friend) :: rest)
                      initial_friends new_friends) s)
        with (exec (relationship_loop true rest initial_friends (new_friends ++ [uid]))
                (set_friends_cache (friends_cache s ∪ {[uid]})
                   (set_calls (calls s ++ [friends_cache_add uid]) s))).
      rewrite IH. rewrite friend_ids_cons_friend.
      destruct s; cbn. rewrite <- !app_assoc. reflexivity.
    + change (exec (relationship_loop true ((uid, Other v) :: rest)
                      initial_friends new_friends) s)
        with (exec (relationship_loop true rest initial_friends new_friends) s).
      rewrite IH. rewrite friend_ids_cons_other. reflexivity.
Qed.

Lemma incremental_calls_no_request friends :
  List.filter is_request (incremental_calls friends) = [].
Proof.
  induction friends as [|[uid rel] rest IH]; [reflexivity|].
  destruct rel; cbn; exact IH.
Qed.

(** The handler on a full snapshot without None-state events. *)
Lemma relationship_handler_full friends s :
  (forall uid, (uid, None_) ∉ friends) ->
  exec (_relationship_handler false friends) s
  = (Done tt,
     set_friends_cache (list_to_set (friend_ids friends))
       (set_calls (calls s ++ [friends_cache_reset (friend_ids friends);
                                set_persona_state EPersonaState.Invisible;
                                get_friends_statuses;
                                get_user_infos (friend_ids friends) _STATUS_FLAG]) s)).
Proof.
  intros Hnone. unfold _relationship_handler.
  rewrite exec_bind, relationship_loop_full by assumption.
  destruct s; cbn. rewrite <- !app_assoc. reflexivity.
Qed.

(** The handler on an incremental batch. *)
Lemma relationship_handler_incremental friends s :
  exec (_relationship_handler true friends) s
  = (Done tt,
     set_friends_cache (incremental_cache friends (friends_cache s))
       (set_calls (calls s ++ incremental_calls friends ++
                   match friend_ids friends with
                   | [] => []
                   | _ :: _ => [get_friends_statuses;
                                get_user_infos (friend_ids friends) _STATUS_FLAG]
                   end) s)).
Proof.
  unfold _relationship_handler.
  rewrite exec_bind, relationship_loop_incremental.
  destruct s; cbn. destruct (friend_ids friends) as [|i ids]; cbn.
  - rewrite app_nil_r. reflexivity.
  - rewrite <- !app_assoc. reflexivity.
Qed.

End Relationship.

(** C3, as the code has it: a full snapshot that holds a None-state event
    fails the handler's assertion and leaves the state as it was (no cache
    operation, no request); a full snapshot without None-state events
    returns, resets the friends cache to exactly its Friend-state
    identifiers, and issues one persona-state change, one friend-statuses
    request and one user-info request for those identifiers, in this order. *)
Theorem full_snapshot_reconciliation (friends : list (user_id * EFriendRelationship.t))
    (s : State) :
  ((exists uid, (uid, EFriendRelationship.None_) ∈ friends) ->
   exec (_relationship_handler false friends) s = (Failed AssertionError, s))
  /\ ((forall uid, (uid, EFriendRelationship.None_) ∉ friends) ->
      exists s',
        exec (_relationship_handler false friends) s = (Done tt, s')
        /\ friends_cache s' = list_to_set (friend_ids friends)
        /\ calls s' = calls s ++ [friends_cache_reset (friend_ids friends);
                                  set_persona_state EPersonaState.Invisible;
                                  get_friends_statuses;
                                  get_user_infos (friend_ids friends) _STATUS_FLAG]).
Proof.
  split.
  - intros Hnone. unfold _relationship_handler.
    rewrite exec_bind, relationship_loop_full_none by assumption. reflexivity.
  - intros Hnone. eexists. split; [apply relationship_handler_full, Hnone|].
    split; reflexivity.
Qed.

Lemma full_snapshot_reconciliation_witness :
  exec (_relationship_handler false
          [(1, EFriendRelationship.Friend); (2, EFriendRelationship.Friend);
           (3, EFriendRelationship.None_)]) new_session
  = (Failed AssertionError, new_session)
  /\ exists s',
      exec (_relationship_handler false
              [(1, EFriendRelationship.Friend); (2, EFriendRelationship.Friend)])
        new_session = (Done tt, s')
      /\ friends_cache s' = list_to_set [1; 2]
      /\ calls s' = calls new_session ++
           [friends_cache_reset [1; 2]; set_persona_state EPersonaState.Invisible;
            get_friends_statuses; get_user_infos [1; 2] _STATUS_FLAG].
Proof.
  split.
  - apply (proj1 (full_snapshot_reconciliation
                    [(1, EFriendRelationship.Friend); (2, EFriendRelationship.Friend);
                     (3, EFriendRelationship.None_)] new_session)).
    exists 3. do 2 apply list_elem_of_further. apply list_elem_of_here.
  - apply (proj2 (full_snapshot_reconciliation
                    [(1, EFriendRelationship.Friend); (2, EFriendRelationship.Friend)]
                    new_session)).
    intros uid Hin.
    apply elem_of_cons in Hin as [Hin|Hin]; [discriminate|].
    apply elem_of_cons in Hin as [Hin|Hin]; [discriminate|].
    inversion Hin.
Defined.

(** The full snapshot {1: Friend, 2: Friend, 3: None} of a new session does
    not return: it raises at the third event, the friends cache is still
    empty, not {1, 2}, and no request has been issued. *)
Lemma full_snapshot_with_none_raises :
  let r := exec (_relationship_handler false
                   [(1, EFriendRelationship.Friend); (2, EFriendRelationship.Friend);
                    (3, EFriendRelationship.None_)]) new_session in
  fst r = Failed AssertionError
  /\ fst r <> Done tt
  /\ friends_cache (snd r) <> {[1; 2]}
  /\ calls (snd r) = [].
Proof.
  cbv zeta. split; [reflexivity|]. split; [discriminate|]. split; [|reflexivity].
  change (friends_cache
            (snd (exec (_relationship_handler false
                   [(1, EFriendRelationship.Friend); (2, EFriendRelationship.Friend);
                    (3, EFriendRelationship.None_)]) new_session)))
    with (∅ : gset user_id).
  intros H. assert (Hin : (1 : user_id) ∈ (∅ : gset user_id)).
  { rewrite H. set_solver. }
  set_solver.
Qed.

(** C4: an incremental batch {D: Friend} on a cache {A, B} leaves the cache
    {A, B, D} and issues, after the cache's add, exactly one friend-statuses
    request and one user-info request for [D]; an incremental batch issues
    requests for exactly its Friend-state identifiers, and none at all when
    it has no Friend-state event. *)
Theorem incremental_batch_requests_delta :
  (forall (s : State) (A B D : user_id),
      friends_cache s = {[A; B]} ->
      exists s',
        exec (_relationship_handler true [(D, EFriendRelationship.Friend)]) s
        = (Done tt, s')
        /\ friends_cache s' = {[A; B; D]}
        /\ calls s' = calls s ++ [friends_cache_add D; get_friends_statuses;
                                  get_user_infos [D] _STATUS_FLAG])
  /\ (forall (s : State) (friends : list (user_id * EFriendRelationship.t)),
      friend_ids friends <> [] ->
      exists s',
        exec (_relationship_handler true friends) s = (Done tt, s')
        /\ requests s' = requests s ++ [get_friends_statuses;
                                        get_user_infos (friend_ids friends) _STATUS_FLAG])
  /\ (forall (s : State) (friends : list (user_id * EFriendRelationship.t)),
      (forall uid, (uid, EFriendRelationship.Friend) ∉ friends) ->
      exists s',
        exec (_relationship_handler true friends) s = (Done tt, s')
        /\ requests s' = requests s).
Proof.
  split; [|split].
  - intros s A B D Hcache. eexists.
    split; [apply relationship_handler_incremental|].
    split; [cbn; rewrite Hcache; reflexivity|reflexivity].
  - intros s friends Hne. eexists.
    split; [apply relationship_handler_incremental|].
    unfold requests. cbn [calls set_friends_cache set_calls].
    rewrite !List.filter_app, incremental_calls_no_request.
    destruct (friend_ids friends); [congruence|reflexivity].
  - intros s friends Hno. eexists.
    split; [apply relationship_handler_incremental|].
    apply friend_ids_nil_iff in Hno.
    unfold requests. cbn [calls set_friends_cache set_calls].
    rewrite !List.filter_app, incremental_calls_no_request, Hno.
    rewrite !app_nil_r. reflexivity.
Qed.

Lemma incremental_batch_requests_delta_witness :
  (exists s',
      exec (_relationship_handler true [(4, EFriendRelationship.Friend)])
        (set_friends_cache {[1; 2]} new_session) = (Done tt, s')
      /\ friends_cache s' = {[1; 2; 4]}
      /\ calls s' = calls (set_friends_cache {[1; 2]} new_session) ++
           [friends_cache_add 4; get_friends_statuses; get_user_infos [4] _STATUS_FLAG])
  /\ (exists s',
      exec (_relationship_handler true
              [(3, EFriendRelationship.None_); (5, EFriendRelationship.Other 2)])
        new_session = (Done tt, s')
      /\ requests s' = requests new_session).
Proof.
  destruct incremental_batch_requests_delta as (Hone & _ & Hnone). split.
  - apply (Hone (set_friends_cache {[1; 2]} new_session) 1 2 4). reflexivity.
  - apply (Hnone new_session
             [(3, EFriendRelationship.None_); (5, EFriendRelationship.Other 2)]).
    intros uid Hin.
    apply elem_of_cons in Hin as [Hin|Hin]; [discriminate|].
    apply elem_of_cons in Hin as [Hin|Hin]; [discriminate|].
    inversion Hin.
Defined.



(** ** The authentication handshake *)

Lemma exec_authenticate steam_id miniprofile_id account_name token h (s : State) :
  let f := fresh (dom (futures s)) in
  exec (authenticate steam_id miniprofile_id account_name token h) s
  = (WaitingFuture f (authenticate_resume h),
     set_calls (calls s ++ [log_on steam_id miniprofile_id account_name token])
       (set_login_future (Some f) (set_futures (<[f := None]> (futures s)) s))).
Proof.
  intros f. unfold authenticate, create_future.
  cbn -[fresh dom insert lookup]. fold f.
  rewrite lookup_insert_eq. reflexivity.
Qed.

Lemma exec_log_on_handler result f (s : State) :
  _login_future s = Some f -> futures s !! f = Some None ->
  exec (_log_on_handler result) s
  = (Done tt, set_futures (<[f := Some result]> (futures s)) s).
Proof.
  intros Hf Hp. unfold _log_on_handler, set_result.
  cbn -[insert lookup]. rewrite Hf. cbn -[insert lookup]. rewrite Hp. reflexivity.
Qed.

Lemma exec_await_done {A} f (k : EResult.t -> Prog A) result (s : State) :
  futures s !! f = Some (Some result) ->
  exec (AwaitFuture f k) s = exec (k result) s.
Proof. intros H. cbn -[lookup]. rewrite H. reflexivity. Qed.

(** C5: [authenticate] creates the login future, sends the login and
    suspends on the future, the auth-lost handler untouched; the login
    callback gives the future its result; resumed on [OK], [authenticate]
    installs the lost-handler and returns; resumed on another code, it
    raises the value that [translate_error] returns for this code and leaves
    the whole state, the auth-lost handler included, as it is. *)
Theorem authenticate_handshake (steam_id miniprofile_id : Z) (account_name token : string)
    (h : Handler) (result : EResult.t) (s : State) :
  exists f s1 s2,
    exec (authenticate steam_id miniprofile_id account_name token h) s
    = (WaitingFuture f (authenticate_resume h), s1)
    /\ _auth_lost_handler s1 = _auth_lost_handler s
    /\ exec (_log_on_handler result) s1 = (Done tt, s2)
    /\ futures s2 !! f = Some (Some result)
    /\ _auth_lost_handler s2 = _auth_lost_handler s
    /\ forall s' : State,
        futures s' !! f = Some (Some result) ->
        (result = EResult.OK ->
         exec (AwaitFuture f (authenticate_resume h)) s'
         = (Done tt, set_auth_lost_handler (Some h) s'))
        /\ (result <> EResult.OK ->
            exists v,
              translate_error result = Returns v
              /\ exn_class (py_raise v) = Some (class_of v)
              /\ exec (AwaitFuture f (authenticate_resume h)) s'
                 = (Failed (py_raise v), s')).
Proof.
  pose proof (exec_authenticate steam_id miniprofile_id account_name token h s) as Ha.
  cbv zeta in Ha.
  set (f := fresh (dom (futures s))) in *.
  eexists f, _, _. split; [exact Ha|].
  split; [reflexivity|].
  split; [apply (exec_log_on_handler result f); [reflexivity|apply lookup_insert_eq]|].
  split; [apply lookup_insert_eq|].
  split; [reflexivity|].
  intros s' Hdone. split.
  - intros ->. rewrite (exec_await_done _ _ _ _ Hdone). reflexivity.
  - intros Hne. destruct (translate_error_returns result Hne) as [v Hv].
    exists v. split; [exact Hv|]. split; [destruct v; reflexivity|].
    rewrite (exec_await_done _ _ _ _ Hdone). unfold authenticate_resume.
    rewrite bool_decide_eq_false_2 by assumption. rewrite Hv. reflexivity.
Qed.

Lemma authenticate_handshake_witness :
  exists f s1 s2,
    exec (authenticate 7 1 "user" "token" 5%nat) new_session
    = (WaitingFuture f (authenticate_resume 5%nat), s1)
    /\ exec (_log_on_handler EResult.InvalidSteamID) s1 = (Done tt, s2)
    /\ exec (AwaitFuture f (authenticate_resume 5%nat)) s2
       = (Failed (GalaxyError errors.InvalidCredentials
                    (Some [("result"%string, EResult.InvalidSteamID)])), s2)
    /\ _auth_lost_handler s2 = None.
Proof.
  destruct (authenticate_handshake 7 1 "user" "token" 5%nat EResult.InvalidSteamID
              new_session) as (f & s1 & s2 & Ha & _ & Hl & Hf & Hh & Hr).
  exists f, s1, s2. split; [exact Ha|]. split; [exact Hl|].
  split; [|exact Hh].
  destruct (Hr s2 Hf) as [_ Hfail].
  destruct (Hfail ltac:(discriminate)) as (v & Hv & _ & He).
  rewrite He. vm_compute in Hv. injection Hv as <-. reflexivity.
Defined.

(** C10: the login callback fails its assertion when no login future is
    set, and [translate_error] fails its assertion on [OK]; under their
    preconditions neither assertion fails: with a pending login future the
    callback returns, and on a code other than [OK] [translate_error]
    returns a value. *)
Theorem handlers_assert_preconditions :
  (forall (result : EResult.t) (s : State),
      _login_future s = None ->
      exec (_log_on_handler result) s = (Failed AssertionError, s))
  /\ translate_error EResult.OK = Raises AssertionError
  /\ (forall (result : EResult.t) (f : fut) (s : State),
      _login_future s = Some f -> futures s !! f = Some None ->
      exists s', exec (_log_on_handler result) s = (Done tt, s'))
  /\ (forall result : EResult.t,
      result <> EResult.OK -> exists v, translate_error result = Returns v).
Proof.
  split; [|split; [|split]].
  - intros result s Hnone. unfold _log_on_handler. cbn. rewrite Hnone. reflexivity.
  - reflexivity.
  - intros result f s Hf Hp. eexists. apply (exec_log_on_handler result f s Hf Hp).
  - exact translate_error_returns.
Qed.

Lemma handlers_assert_preconditions_witness :
  exec (_log_on_handler EResult.OK) new_session = (Failed AssertionError, new_session)
  /\ (exists s', exec (_log_on_handler EResult.OK)
                   (set_login_future (Some 0%nat)
                      (set_futures {[0%nat := None]} new_session)) = (Done tt, s'))
  /\ exists v, translate_error EResult.Banned = Returns v.
Proof.
  destruct handlers_assert_preconditions as (Hunset & _ & Hset & Hret).
  split; [apply (Hunset EResult.OK new_session); reflexivity|].
  split.
  - apply (Hset EResult.OK 0%nat); reflexivity.
  - apply (Hret EResult.Banned). discriminate.
Defined.

(** ** The collections rendezvous *)

Lemma exec_retrieve_collections_unset (s : State) :
  collections_event s = false ->
  exec retrieve_collections s
  = (WaitingEvent retrieve_collections_resume,
     set_job_list (job_list s ++ [import_collections_job]) s).
Proof. intros H. unfold retrieve_collections. cbn. rewrite H. reflexivity. Qed.

Lemma exec_retrieve_collections_resume (s : State) :
  let c := fresh (dom (heap s)) in
  let heap1 := <[c := default ∅ (heap s !! collections_collections s)]> (heap s) in
  let d := fresh (dom heap1) in
  exec retrieve_collections_resume s
  = (Done c,
     set_collections_collections d
       (set_heap (<[d := ∅]> heap1) (set_collections_event false s))).
Proof. destruct s; reflexivity. Qed.

(** C6: woken with the payload P in the slot, [retrieve_collections] returns
    a new dictionary that holds P, clears the event and puts a new empty
    dictionary in the slot; the dictionary that was in the slot is left as
    it was.  A call made in the state it leaves suspends again, after it has
    queued its job. *)
Theorem retrieve_collections_consumes (s : State) (P : gmap string Z) :
  heap s !! collections_collections s = Some P ->
  exists c s',
    exec retrieve_collections_resume s = (Done c, s')
    /\ c <> collections_collections s
    /\ heap s' !! c = Some P
    /\ heap s' !! collections_collections s = Some P
    /\ collections_event s' = false
    /\ collections_collections s' <> c
    /\ collections_collections s' <> collections_collections s
    /\ heap s' !! collections_collections s' = Some ∅
    /\ exec retrieve_collections s'
       = (WaitingEvent retrieve_collections_resume,
          set_job_list (job_list s' ++ [import_collections_job]) s').
Proof.
  intros HP.
  pose proof (exec_retrieve_collections_resume s) as He. cbv zeta in He.
  rewrite HP in He. cbn [default] in He.
  set (c := fresh (dom (heap s))) in *.
  set (heap1 := <[c := P]> (heap s)) in *.
  set (d := fresh (dom heap1)) in *.
  assert (Hc : c ∉ dom (heap s)) by apply is_fresh.
  assert (Hd : d ∉ dom heap1) by apply is_fresh.
  assert (Hold : collections_collections s ∈ dom (heap s)).
  { apply elem_of_dom. exists P. exact HP. }
  assert (Hc1 : c ∈ dom heap1).
  { apply elem_of_dom. exists P. apply lookup_insert_eq. }
  assert (Hold1 : collections_collections s ∈ dom heap1).
  { unfold heap1. rewrite dom_insert_L. apply elem_of_union. right. exact Hold. }
  assert (Hco : c <> collections_collections s).
  { intros E. apply Hc. rewrite E. exact Hold. }
  assert (Hdc : d <> c).
  { intros E. apply Hd. rewrite E. exact Hc1. }
  assert (Hdo : d <> collections_collections s).
  { intros E. apply Hd. rewrite E. exact Hold1. }
  eexists c, _. split; [exact He|].
  cbn [heap collections_event collections_collections
       set_collections_collections set_heap set_collections_event].
  split; [exact Hco|].
  split; [rewrite lookup_insert_ne by exact Hdc; apply lookup_insert_eq|].
  split.
  { rewrite lookup_insert_ne by exact Hdo. unfold heap1.
    rewrite lookup_insert_ne by exact Hco. exact HP. }
  split; [reflexivity|].
  split; [exact Hdc|].
  split; [exact Hdo|].
  split; [apply lookup_insert_eq|].
  apply exec_retrieve_collections_unset. reflexivity.
Qed.

Lemma retrieve_collections_consumes_witness :
  exists c s',
    exec retrieve_collections_resume
      (set_collections_event true
         (set_heap {[0%nat := {["x"%string := 1]}]} new_session)) = (Done c, s')
    /\ heap s' !! c = Some {["x"%string := 1]}
    /\ collections_event s' = false
    /\ heap s' !! collections_collections s' = Some ∅
    /\ fst (exec retrieve_collections s') = WaitingEvent retrieve_collections_resume.
Proof.
  assert (Hslot : heap (set_collections_event true
                          (set_heap {[0%nat := {["x"%string := 1]}]} new_session))
                  !! collections_collections
                       (set_collections_event true
                          (set_heap {[0%nat := {["x"%string := 1]}]} new_session))
                  = Some {["x"%string := 1]}) by (vm_compute; reflexivity).
  destruct (retrieve_collections_consumes _ _ Hslot)
    as (c & s' & He & _ & Hc & _ & Hev & _ & _ & Hd & Hagain).
  exists c, s'. split; [exact He|]. split; [exact Hc|]. split; [exact Hev|].
  split; [exact Hd|]. rewrite Hagain. reflexivity.
Defined.

(** ** The lazy translation fill *)

Lemma translations_handler_miss (appid : app_id) (translations : option (list Bundle))
    (s : State) :
  default [] translations = [] ->
  appid ∉ dom (translations_cache s) ->
  exec (_translations_handler appid translations) s
  = (Done tt, set_calls (calls s ++ [get_presence_localization appid]) s).
Proof.
  intros He Hm. unfold _translations_handler. cbn -[dom]. rewrite He.
  rewrite (bool_decide_eq_true_2 ([] = [])) by reflexivity.
  rewrite andb_false_r. rewrite bool_decide_eq_true_2 by exact Hm. reflexivity.
Qed.

Lemma translations_handler_cached (appid : app_id) (translations : option (list Bundle))
    (s : State) :
  default [] translations = [] ->
  appid ∈ dom (translations_cache s) ->
  exec (_translations_handler appid translations) s = (Done tt, s).
Proof.
  intros He Hm. unfold _translations_handler. cbn -[dom]. rewrite He.
  rewrite (bool_decide_eq_true_2 ([] = [])) by reflexivity.
  rewrite andb_false_r. rewrite bool_decide_eq_false_2 by (intros Hn; exact (Hn Hm)).
  reflexivity.
Qed.

Lemma translations_handler_store (appid : app_id) (first : Bundle) (others : list Bundle)
    (s : State) :
  appid <> 0 ->
  exec (_translations_handler appid (Some (first :: others))) s
  = (Done tt, set_translations_cache (<[appid := first]> (translations_cache s)) s).
Proof.
  intros Hz. unfold _translations_handler. cbn -[dom insert Z.eqb].
  apply Z.eqb_neq in Hz. rewrite Hz. reflexivity.
Qed.

(** C7: for the application 42, an absent or empty payload with 42 not a key
    of the translations cache issues one localization request for 42 and
    leaves the cache as it is; an absent or empty payload with 42 a key does
    nothing; the payload [bundleA, bundleB] stores bundleA under 42 and
    issues no request. *)
Theorem translations_handler_42 (s : State) (bundleA bundleB : Bundle) :
  (forall translations,
      translations = None \/ translations = Some [] ->
      42 ∉ dom (translations_cache s) ->
      exec (_translations_handler 42 translations) s
      = (Done tt, set_calls (calls s ++ [get_presence_localization 42]) s))
  /\ (forall translations,
      translations = None \/ translations = Some [] ->
      42 ∈ dom (translations_cache s) ->
      exec (_translations_handler 42 translations) s = (Done tt, s))
  /\ exec (_translations_handler 42 (Some [bundleA; bundleB])) s
     = (Done tt, set_translations_cache (<[42 := bundleA]> (translations_cache s)) s).
Proof.
  split; [|split].
  - intros t [-> | ->] Hm; apply translations_handler_miss; [reflexivity|exact Hm
                                                            |reflexivity|exact Hm].
  - intros t [-> | ->] Hm; apply translations_handler_cached; [reflexivity|exact Hm
                                                              |reflexivity|exact Hm].
  - apply translations_handler_store. discriminate.
Qed.

Lemma translations_handler_42_witness :
  exec (_translations_handler 42 None) new_session
  = (Done tt, set_calls [get_presence_localization 42] new_session)
  /\ exec (_translations_handler 42 (Some []))
       (set_translations_cache {[42 := "bundle"%string]} new_session)
     = (Done tt, set_translations_cache {[42 := "bundle"%string]} new_session).
Proof.
  split.
  - apply (proj1 (translations_handler_42 new_session ""%string ""%string) None).
    + left. reflexivity.
    + cbn. rewrite dom_empty_L. apply not_elem_of_empty.
  - apply (proj1 (proj2 (translations_handler_42
                           (set_translations_cache {[42 := "bundle"%string]} new_session)
                           ""%string ""%string)) (Some [])).
    + right. reflexivity.
    + cbn. rewrite dom_singleton_L. apply elem_of_singleton. reflexivity.
Defined.

(** ** The licence import *)

Lemma package_ids_map (licenses : list License) (acc : list Z) :
  fold_left (fun acc license => acc ++ [int (package_id license)]) licenses acc
  = acc ++ map package_id licenses.
Proof.
  revert acc. induction licenses as [|l rest IH]; intros acc; cbn.
  - rewrite app_nil_r. reflexivity.
  - rewrite IH, <- app_assoc. reflexivity.
Qed.

(** C8: for every licence batch the handler first tells the games cache
    that a packages import starts for the package identifiers of the batch,
    in batch order, and then issues one package-info request for this same
    list, and makes no other call; so for the licences 7 and 9. *)
Theorem license_import_one_request :
  (forall (licenses : list License) (s : State),
      exec (_license_import_handler licenses) s
      = (Done tt,
         set_calls (calls s ++
                    [games_cache_start_packages_import (map package_id licenses);
                     get_packages_info (map package_id licenses)]) s))
  /\ calls (snd (exec (_license_import_handler [mkLicense 7; mkLicense 9]) new_session))
     = [games_cache_start_packages_import [7; 9]; get_packages_info [7; 9]].
Proof.
  split; [|reflexivity].
  intros licenses s. unfold _license_import_handler.
  rewrite package_ids_map. destruct s; cbn. rewrite <- app_assoc. reflexivity.
Qed.

(** ** Further properties of the classifier *)

(** X1: the value that [translate_error] returns for a code other than [OK]
    carries that code, and no other, exactly when the code is none of the
    five codes of the last tuple; for those five it carries none. *)
Theorem translate_error_carried_code (code : EResult.t) (v : PyValue) :
  translate_error code = Returns v ->
  (py_in code backend_error_codes = false -> carried_code v = Some code)
  /\ (py_in code backend_error_codes = true -> carried_code v = None)
  /\ (forall other, carried_code v = Some other -> other = code).
Proof.
  intros Hv.
  assert (Hok : code <> EResult.OK).
  { intros ->. discriminate Hv. }
  destruct (py_in code backend_error_codes) eqn:Hb.
  - assert (v = ErrClass errors.BackendError) as ->.
    { destruct code; try congruence; try (vm_compute in Hb; discriminate);
        vm_compute in Hv; congruence. }
    split; [discriminate|]. split; [reflexivity|]. intros other H. discriminate H.
  - destruct (translate_error_carries_code code Hok Hb) as (c & Hc & Hcarried).
    rewrite Hc in Hv. injection Hv as <-.
    split; [intros _; exact Hcarried|]. split; [discriminate|].
    intros other H. rewrite Hcarried in H. congruence.
Qed.

Lemma translate_error_carried_code_witness :
  carried_code (ErrInstance errors.Banned (Some [("result"%string, EResult.Banned)]))
  = Some EResult.Banned.
Proof.
  apply (proj1 (translate_error_carried_code EResult.Banned _ ltac:(reflexivity))).
  reflexivity.
Defined.

(** X2: [translate_error] yields [UnknownError] for exactly the codes that
    none of its tuples holds: a returned value has the class [UnknownError]
    if and only if the code is in no row of the table. *)
Theorem translate_error_unknown_iff (code : EResult.t) (v : PyValue) :
  translate_error code = Returns v ->
  (class_of v = errors.UnknownError <-> listed code = false).
Proof.
  intros Hv. destruct code; vm_compute in Hv; try discriminate Hv;
    injection Hv as <-; split; intros H; try reflexivity;
    try (vm_compute in H; discriminate H).
Qed.

Lemma translate_error_unknown_iff_witness :
  class_of (ErrInstance errors.UnknownError (Some [("result"%string, EResult.Other 5)]))
  = errors.UnknownError <-> listed (EResult.Other 5) = false.
Proof.
  apply (translate_error_unknown_iff (EResult.Other 5)). reflexivity.
Defined.

(** ** Further properties of the handshake and of the log-off *)

Lemma exec_log_off_handler_none (result : EResult.t) (s : State) :
  _auth_lost_handler s = None ->
  exec (_log_off_handler result) s = (Done tt, s).
Proof. intros Hn. unfold _log_off_handler. cbn. rewrite Hn. reflexivity. Qed.

Lemma exec_log_off_handler_some (result : EResult.t) (h : Handler) (v : PyValue)
    (s : State) :
  _auth_lost_handler s = Some h -> translate_error result = Returns v ->
  exec (_log_off_handler result) s
  = (Done tt, set_calls (calls s ++ [auth_lost_handler_call h v]) s).
Proof.
  intros Hh Hv. unfold _log_off_handler. cbn. rewrite Hh, Hv. reflexivity.
Qed.

(** X3: the log-off callback does nothing when no lost-handler is installed,
    whatever the result code, [OK] included; with a handler installed it
    fails the assertion of [translate_error] on [OK], before the handler is
    invoked, and on any other code it invokes the handler once, with the
    value that [translate_error] returns for the code. *)
Theorem log_off_handler_cases (result : EResult.t) (s : State) :
  (_auth_lost_handler s = None ->
   exec (_log_off_handler result) s = (Done tt, s))
  /\ (forall h, _auth_lost_handler s = Some h -> result = EResult.OK ->
      exec (_log_off_handler result) s = (Failed AssertionError, s))
  /\ (forall h, _auth_lost_handler s = Some h -> result <> EResult.OK ->
      exists v,
        translate_error result = Returns v
        /\ exec (_log_off_handler result) s
           = (Done tt, set_calls (calls s ++ [auth_lost_handler_call h v]) s)).
Proof.
  split; [|split].
  - apply exec_log_off_handler_none.
  - intros h Hh ->. unfold _log_off_handler. cbn. rewrite Hh. reflexivity.
  - intros h Hh Hne. destruct (translate_error_returns result Hne) as [v Hv].
    exists v. split; [exact Hv|]. apply exec_log_off_handler_some; assumption.
Qed.

Lemma log_off_handler_cases_witness :
  exec (_log_off_handler EResult.OK) new_session = (Done tt, new_session)
  /\ exec (_log_off_handler EResult.OK) (set_auth_lost_handler (Some 5%nat) new_session)
     = (Failed AssertionError, set_auth_lost_handler (Some 5%nat) new_session)
  /\ exists v,
       translate_error EResult.LogonSessionReplaced = Returns v
       /\ exec (_log_off_handler EResult.LogonSessionReplaced)
            (set_auth_lost_handler (Some 5%nat) new_session)
          = (Done tt,
             set_calls (calls (set_auth_lost_handler (Some 5%nat) new_session)
                        ++ [auth_lost_handler_call 5%nat v])
               (set_auth_lost_handler (Some 5%nat) new_session)).
Proof.
  split; [|split].
  - apply (proj1 (log_off_handler_cases EResult.OK new_session)). reflexivity.
  - apply (proj1 (proj2 (log_off_handler_cases EResult.OK
                           (set_auth_lost_handler (Some 5%nat) new_session))) 5%nat);
      reflexivity.
  - apply (proj2 (proj2 (log_off_handler_cases EResult.LogonSessionReplaced
                           (set_auth_lost_handler (Some 5%nat) new_session))) 5%nat).
    + reflexivity.
    + discriminate.
Defined.

(** The state in which a handshake leaves the session: the handshake of
    [authenticate] with the result [result], run from [s] to its end. *)
Lemma handshake_end steam_id miniprofile_id account_name token h result (s : State) :
  exists f s1 s2 o s3,
    exec (authenticate steam_id miniprofile_id account_name token h) s
    = (WaitingFuture f (authenticate_resume h), s1)
    /\ exec (_log_on_handler result) s1 = (Done tt, s2)
    /\ exec (AwaitFuture f (authenticate_resume h)) s2 = (o, s3)
    /\ futures s2 = <[f := Some result]> (futures s)
    /\ (f ∉ dom (futures s))
    /\ _login_future s3 = Some f
    /\ futures s3 = <[f := Some result]> (futures s)
    /\ _auth_lost_handler s3
       = (if bool_decide (result = EResult.OK) then Some h else _auth_lost_handler s)
    /\ calls s3 = calls s ++ [log_on steam_id miniprofile_id account_name token]
    /\ o = (if bool_decide (result = EResult.OK) then Done tt
            else match translate_error result with
                 | Returns v => Failed (py_raise v)
                 | Raises e => Failed e
                 end)
    /\ s3 = (if bool_decide (result = EResult.OK)
             then set_auth_lost_handler (Some h) s2 else s2).
Proof.
  pose proof (exec_authenticate steam_id miniprofile_id account_name token h s) as Ha.
  cbv zeta in Ha. set (f := fresh (dom (futures s))) in *.
  assert (Hfresh : f ∉ dom (futures s)) by apply is_fresh.
  set (s1 := set_calls (calls s ++ [log_on steam_id miniprofile_id account_name token])
               (set_login_future (Some f) (set_futures (<[f := None]> (futures s)) s)))
    in *.
  assert (Hl : exec (_log_on_handler result) s1
               = (Done tt, set_futures (<[f := Some result]> (futures s1)) s1)).
  { apply (exec_log_on_handler result f); [reflexivity|apply lookup_insert_eq]. }
  destruct (bool_decide (result = EResult.OK)) eqn:Hok;
    [|destruct (translate_error result) as [v|e] eqn:Hv];
    (eexists f, _, _, _, _; split; [exact Ha|]; split; [exact Hl|];
     split;
     [rewrite (exec_await_done f _ result) by apply lookup_insert_eq;
      unfold authenticate_resume; rewrite Hok, ?Hv; reflexivity|];
     split; [apply insert_insert_eq|];
     split; [exact Hfresh|]; split; [reflexivity|];
     split; [apply insert_insert_eq|];
     repeat (split; [reflexivity|]); reflexivity).
Qed.

(** X4: after a handshake, whatever its result, a log-off with a code other
    than [OK] reaches the handler of the last successful authentication: the
    handler just given when the handshake ended in [OK], otherwise the one
    that was installed before, and nobody when there was none. *)
Theorem log_off_after_handshake (steam_id miniprofile_id : Z)
    (account_name token : string) (h : Handler) (result lost : EResult.t) (s : State) :
  lost <> EResult.OK ->
  exists f s1 s2 o s3 v s4,
    exec (authenticate steam_id miniprofile_id account_name token h) s
    = (WaitingFuture f (authenticate_resume h), s1)
    /\ exec (_log_on_handler result) s1 = (Done tt, s2)
    /\ exec (AwaitFuture f (authenticate_resume h)) s2 = (o, s3)
    /\ translate_error lost = Returns v
    /\ exec (_log_off_handler lost) s3 = (Done tt, s4)
    /\ calls s4
       = calls s3 ++
         match (if bool_decide (result = EResult.OK) then Some h
                else _auth_lost_handler s) with
         | Some installed => [auth_lost_handler_call installed v]
         | None => []
         end.
Proof.
  intros Hlost.
  destruct (handshake_end steam_id miniprofile_id account_name token h result s)
    as (f & s1 & s2 & o & s3 & Ha & Hl & Hr & _ & _ & _ & _ & Hh & _ & _ & _).
  destruct (translate_error_returns lost Hlost) as [v Hv].
  rewrite <- Hh.
  destruct (_auth_lost_handler s3) as [installed|] eqn:Hinst.
  - eexists f, s1, s2, o, s3, v, _. repeat (split; [eassumption|]).
    split; [apply (exec_log_off_handler_some lost installed v s3 Hinst Hv)|].
    reflexivity.
  - eexists f, s1, s2, o, s3, v, _. repeat (split; [eassumption|]).
    split; [apply (exec_log_off_handler_none lost s3 Hinst)|].
    rewrite app_nil_r. reflexivity.
Qed.

Lemma log_off_after_handshake_witness :
  exists f s1 s2 o s3 v s4,
    exec (authenticate 7 1 "user" "token" 5%nat) new_session
    = (WaitingFuture f (authenticate_resume 5%nat), s1)
    /\ exec (_log_on_handler EResult.OK) s1 = (Done tt, s2)
    /\ exec (AwaitFuture f (authenticate_resume 5%nat)) s2 = (o, s3)
    /\ translate_error EResult.LogonSessionReplaced = Returns v
    /\ exec (_log_off_handler EResult.LogonSessionReplaced) s3 = (Done tt, s4)
    /\ calls s4 = calls s3 ++ [auth_lost_handler_call 5%nat v].
Proof.
  apply (log_off_after_handshake 7 1 "user" "token" 5%nat EResult.OK
           EResult.LogonSessionReplaced new_session).
  discriminate.
Defined.

(** X5: a second login callback for one [authenticate] is refused: the
    login future already has its result, so [set_result] raises
    [InvalidStateError], and the state, the first result included, stays. *)
Theorem log_on_handler_twice (steam_id miniprofile_id : Z) (account_name token : string)
    (h : Handler) (result again : EResult.t) (s : State) :
  exists f s1 s2,
    exec (authenticate steam_id miniprofile_id account_name token h) s
    = (WaitingFuture f (authenticate_resume h), s1)
    /\ exec (_log_on_handler result) s1 = (Done tt, s2)
    /\ exec (_log_on_handler again) s2 = (Failed InvalidStateError, s2)
    /\ futures s2 !! f = Some (Some result).
Proof.
  pose proof (exec_authenticate steam_id miniprofile_id account_name token h s) as Ha.
  cbv zeta in Ha. set (f := fresh (dom (futures s))) in *.
  eexists f, _, _. split; [exact Ha|].
  split; [apply (exec_log_on_handler result f); [reflexivity|apply lookup_insert_eq]|].
  split; [|apply lookup_insert_eq].
  unfold _log_on_handler, set_result. cbn -[insert lookup].
  rewrite lookup_insert_eq. reflexivity.
Qed.

(** X6: a failed handshake does not block the next one: a second
    [authenticate] waits on a new future, distinct from the first, the
    login callback gives its result to this new future without touching the
    old one, and on [OK] the second call installs its handler. *)
Theorem authenticate_retry (steam_id miniprofile_id : Z) (account_name token : string)
    (h1 h2 : Handler) (result : EResult.t) (s : State) :
  result <> EResult.OK ->
  exists f1 s1 s2 e f2 s3 s4,
    exec (authenticate steam_id miniprofile_id account_name token h1) s
    = (WaitingFuture f1 (authenticate_resume h1), s1)
    /\ exec (_log_on_handler result) s1 = (Done tt, s2)
    /\ exec (AwaitFuture f1 (authenticate_resume h1)) s2 = (Failed e, s2)
    /\ exec (authenticate steam_id miniprofile_id account_name token h2) s2
       = (WaitingFuture f2 (authenticate_resume h2), s3)
    /\ f2 <> f1
    /\ exec (_log_on_handler EResult.OK) s3 = (Done tt, s4)
    /\ futures s4 !! f1 = Some (Some result)
    /\ exec (AwaitFuture f2 (authenticate_resume h2)) s4
       = (Done tt, set_auth_lost_handler (Some h2) s4).
Proof.
  intros Hne.
  destruct (handshake_end steam_id miniprofile_id account_name token h1 result s)
    as (f1 & s1 & s2 & o & s2' & Ha & Hl & Hr & Hfut & _ & _ & _ & _ & _ & Ho & Hs).
  rewrite bool_decide_eq_false_2 in Ho, Hs by exact Hne. subst s2'.
  destruct (translate_error_returns result Hne) as [v Hv]. rewrite Hv in Ho. subst o.
  assert (Hf1 : futures s2 !! f1 = Some (Some result)).
  { rewrite Hfut. apply lookup_insert_eq. }
  destruct (handshake_end steam_id miniprofile_id account_name token h2 EResult.OK s2)
    as (f2 & s3 & s4 & o2 & s5 & Ha2 & Hl2 & _ & Hfut2 & Hfresh & _).
  assert (Hdiff : f2 <> f1).
  { intros ->. apply Hfresh. apply elem_of_dom. eexists. exact Hf1. }
  exists f1, s1, s2, (py_raise v), f2, s3, s4.
  split; [exact Ha|]. split; [exact Hl|]. split; [exact Hr|].
  split; [exact Ha2|]. split; [exact Hdiff|]. split; [exact Hl2|].
  split.
  { rewrite Hfut2. rewrite lookup_insert_ne by exact Hdiff. exact Hf1. }
  rewrite (exec_await_done f2 _ EResult.OK)
    by (rewrite Hfut2; apply lookup_insert_eq).
  reflexivity.
Qed.

Lemma authenticate_retry_witness :
  exists f1 s1 s2 e f2 s3 s4,
    exec (authenticate 7 1 "user" "token" 5%nat) new_session
    = (WaitingFuture f1 (authenticate_resume 5%nat), s1)
    /\ exec (_log_on_handler EResult.Timeout) s1 = (Done tt, s2)
    /\ exec (AwaitFuture f1 (authenticate_resume 5%nat)) s2 = (Failed e, s2)
    /\ exec (authenticate 7 1 "user" "token" 6%nat) s2
       = (WaitingFuture f2 (authenticate_resume 6%nat), s3)
    /\ f2 <> f1
    /\ exec (_log_on_handler EResult.OK) s3 = (Done tt, s4)
    /\ futures s4 !! f1 = Some (Some EResult.Timeout)
    /\ exec (AwaitFuture f2 (authenticate_resume 6%nat)) s4
       = (Done tt, set_auth_lost_handler (Some 6%nat) s4).
Proof.
  apply (authenticate_retry 7 1 "user" "token" 5%nat 6%nat EResult.Timeout new_session).
  discriminate.
Defined.

(** ** Further properties of the relationship handler *)

#[local] Set Warnings "-clear-no-such-hyp".

Section RelationshipMore.

Import EFriendRelationship.

Lemma incremental_cache_elem (friends : list (user_id * EFriendRelationship.t))
    (cache : gset user_id) (uid : user_id) :
  NoDup (map fst friends) ->
  uid ∈ incremental_cache friends cache
  <-> (uid, Friend) ∈ friends \/ (uid ∈ cache /\ (uid, None_) ∉ friends).
Proof.
  revert cache. induction friends as [|[u rel] rest IH]; intros cache Hnd.
  - cbn. split.
    + intros H. right. split; [exact H|]. intros Hin. inversion Hin.
    + intros [H|[H _]]; [inversion H|exact H].
  - change (map fst ((u, rel) :: rest)) with (u :: map fst rest) in Hnd.
    apply NoDup_cons in Hnd as [Hu Hnd].
    assert (Hkey : forall r, (u, r) ∉ rest).
    { intros r Hin. apply Hu. apply list_elem_of_In.
      apply (in_map fst rest (u, r)). apply list_elem_of_In. exact Hin. }
    unfold incremental_cache in *. cbn [fold_left snd fst].
    pose proof (Hkey None_) as HkeyN.
    destruct rel as [| |v];
      rewrite (IH _ Hnd), !elem_of_cons, ?elem_of_difference, ?elem_of_union,
        ?elem_of_singleton; clear IH Hkey Hu Hnd; naive_solver.
Qed.

Lemma none_event_dec (friends : list (user_id * EFriendRelationship.t)) :
  (exists uid, (uid, None_) ∈ friends) \/ (forall uid, (uid, None_) ∉ friends).
Proof.
  induction friends as [|[u rel] rest [[uid H]|H]].
  - right. intros uid H. inversion H.
  - left. exists uid. apply list_elem_of_further, H.
  - destruct rel as [| |v].
    + left. exists u. apply list_elem_of_here.
    + right. intros uid Hin. apply elem_of_cons in Hin as [E|Hin];
        [discriminate|exact (H uid Hin)].
    + right. intros uid Hin. apply elem_of_cons in Hin as [E|Hin];
        [discriminate|exact (H uid Hin)].
Qed.

Lemma incremental_calls_no_resync friends :
  List.filter is_resync_call (incremental_calls friends) = [].
Proof.
  induction friends as [|[uid rel] rest IH]; [reflexivity|].
  destruct rel; cbn; exact IH.
Qed.

End RelationshipMore.

(** X7: after an incremental batch, whose keys are distinct as those of a
    dict are, a user is a member of the friends cache exactly when the batch
    gives it the state Friend, or when it was a member before and the batch
    does not give it the state None. *)
Theorem incremental_batch_membership (friends : list (user_id * EFriendRelationship.t))
    (s : State) (uid : user_id) :
  NoDup (map fst friends) ->
  exists s',
    exec (_relationship_handler true friends) s = (Done tt, s')
    /\ (uid ∈ friends_cache s'
        <-> (uid, EFriendRelationship.Friend) ∈ friends
            \/ (uid ∈ friends_cache s /\ (uid, EFriendRelationship.None_) ∉ friends)).
Proof.
  intros Hnd. eexists. split; [apply relationship_handler_incremental|].
  cbn [friends_cache set_friends_cache]. apply incremental_cache_elem, Hnd.
Qed.

Lemma incremental_batch_membership_witness :
  exists s',
    exec (_relationship_handler true
            [(1, EFriendRelationship.None_); (4, EFriendRelationship.Friend)])
      (set_friends_cache {[1; 2]} new_session) = (Done tt, s')
    /\ (2 ∈ friends_cache s'
        <-> (2, EFriendRelationship.Friend)
              ∈ [(1, EFriendRelationship.None_); (4, EFriendRelationship.Friend)]
            \/ (2 ∈ friends_cache (set_friends_cache {[1; 2]} new_session)
                /\ (2, EFriendRelationship.None_)
                     ∉ [(1, EFriendRelationship.None_); (4, EFriendRelationship.Friend)])).
Proof.
  apply (incremental_batch_membership
           [(1, EFriendRelationship.None_); (4, EFriendRelationship.Friend)]
           (set_friends_cache {[1; 2]} new_session) 2).
  cbn. apply NoDup_cons_2.
  - intros H. apply elem_of_cons in H as [H|H]; [discriminate H|inversion H].
  - apply NoDup_cons_2; [intros H; inversion H|apply NoDup_nil_2].
Defined.

(** X8: whatever the batch and the mode, and whether it returns or fails
    its assertion, the relationship handler only ever extends the calls and
    changes the friends cache: the job list, the collections slot and its
    dictionaries, the translations cache, the lost-handler and the login
    future are left as they were. *)
Theorem relationship_handler_frame (incremental : bool)
    (friends : list (user_id * EFriendRelationship.t)) (s : State) :
  exists o s' new,
    exec (_relationship_handler incremental friends) s = (o, s')
    /\ (o = Done tt \/ o = Failed AssertionError)
    /\ calls s' = calls s ++ new
    /\ job_list s' = job_list s
    /\ collections_event s' = collections_event s
    /\ collections_collections s' = collections_collections s
    /\ heap s' = heap s
    /\ translations_cache s' = translations_cache s
    /\ _auth_lost_handler s' = _auth_lost_handler s
    /\ _login_future s' = _login_future s
    /\ futures s' = futures s.
Proof.
  destruct incremental.
  - eexists _, _, _. split; [apply relationship_handler_incremental|].
    split; [left; reflexivity|]. repeat (split; [reflexivity|]). reflexivity.
  - destruct (none_event_dec friends) as [Hn|Hn].
    + exists (Failed AssertionError), s, []. split.
      * unfold _relationship_handler.
        rewrite exec_bind, relationship_loop_full_none by assumption. reflexivity.
      * split; [right; reflexivity|]. split; [rewrite app_nil_r; reflexivity|].
        repeat (split; [reflexivity|]). reflexivity.
    + eexists _, _, _. split; [apply relationship_handler_full, Hn|].
      split; [left; reflexivity|]. repeat (split; [reflexivity|]). reflexivity.
Qed.

(** X9: an incremental batch never fails and never resynchronises: among
    the calls it adds there is no reset of the friends cache and no change
    of the persona state, and the only requests are the friend-statuses and
    user-info requests for the Friend-state identifiers of the batch. *)
Theorem incremental_batch_no_resync
    (friends : list (user_id * EFriendRelationship.t)) (s : State) :
  exists s' new,
    exec (_relationship_handler true friends) s = (Done tt, s')
    /\ calls s' = calls s ++ new
    /\ List.filter is_resync_call new = []
    /\ List.filter is_request new
       = match friend_ids friends with
         | [] => []
         | _ :: _ => [get_friends_statuses;
                      get_user_infos (friend_ids friends) _STATUS_FLAG]
         end.
Proof.
  eexists _, _. split; [apply relationship_handler_incremental|].
  split; [reflexivity|].
  rewrite !List.filter_app, incremental_calls_no_resync, incremental_calls_no_request.
  destruct (friend_ids friends); split; reflexivity.
Qed.

(** ** Further properties of the lazy translation fill *)

(** X10: a payload that is not empty, for an application identifier other
    than zero, is stored and read back: afterwards the cache maps the
    identifier to the first bundle, whether or not it had an entry before,
    every other entry is as it was, no call has been made, and an empty
    event for this identifier then changes nothing and requests nothing. *)
Theorem translations_store_lookup (appid : app_id) (first : Bundle)
    (others : list Bundle) (s : State) :
  appid <> 0 ->
  exists s',
    exec (_translations_handler appid (Some (first :: others))) s = (Done tt, s')
    /\ translations_cache s' !! appid = Some first
    /\ (forall other : app_id,
          other <> appid -> translations_cache s' !! other = translations_cache s !! other)
    /\ calls s' = calls s
    /\ (forall translations,
          default [] translations = [] ->
          exec (_translations_handler appid translations) s' = (Done tt, s')).
Proof.
  intros Hz. eexists. split; [apply translations_handler_store, Hz|].
  cbn [translations_cache set_translations_cache calls].
  split; [apply lookup_insert_eq|].
  split; [intros other Hne; apply lookup_insert_ne; congruence|].
  split; [reflexivity|].
  intros t Ht. apply translations_handler_cached; [exact Ht|].
  cbn [translations_cache set_translations_cache].
  apply elem_of_dom. eexists. apply lookup_insert_eq.
Qed.

Lemma translations_store_lookup_witness :
  exists s',
    exec (_translations_handler 42 (Some ["A"%string; "B"%string]))
      (set_translations_cache {[42 := "old"%string]} new_session) = (Done tt, s')
    /\ translations_cache s' !! 42 = Some "A"%string.
Proof.
  destruct (translations_store_lookup 42 "A"%string ["B"%string]
              (set_translations_cache {[42 := "old"%string]} new_session)
              ltac:(discriminate)) as (s' & He & Hl & _).
  exists s'. split; [exact He|exact Hl].
Defined.

(** X11: the handler keeps no record of the requests it has issued: two
    empty events in a row for an identifier that is not a key of the cache
    issue two localization requests for it, and the cache stays as it is. *)
Theorem translations_miss_repeats (appid : app_id)
    (first_event second_event : option (list Bundle)) (s : State) :
  default [] first_event = [] -> default [] second_event = [] ->
  appid ∉ dom (translations_cache s) ->
  exists s1 s2,
    exec (_translations_handler appid first_event) s = (Done tt, s1)
    /\ exec (_translations_handler appid second_event) s1 = (Done tt, s2)
    /\ calls s2 = calls s ++ [get_presence_localization appid;
                              get_presence_localization appid]
    /\ translations_cache s2 = translations_cache s.
Proof.
  intros H1 H2 Hm. eexists _, _.
  split; [apply translations_handler_miss; assumption|].
  split; [apply translations_handler_miss; assumption|].
  cbn [calls set_calls translations_cache]. rewrite <- app_assoc.
  split; reflexivity.
Qed.

Lemma translations_miss_repeats_witness :
  exists s1 s2,
    exec (_translations_handler 42 None) new_session = (Done tt, s1)
    /\ exec (_translations_handler 42 (Some [])) s1 = (Done tt, s2)
    /\ calls s2 = calls new_session ++ [get_presence_localization 42;
                                        get_presence_localization 42]
    /\ translations_cache s2 = translations_cache new_session.
Proof.
  apply (translations_miss_repeats 42 None (Some []) new_session).
  - reflexivity.
  - reflexivity.
  - cbn. rewrite dom_empty_L. apply not_elem_of_empty.
Defined.

(** X12: the identifier zero is false in the handler's condition, so a
    payload that comes with it is never stored: the cache stays as it is,
    and a localization request for zero is issued unless zero is a key. *)
Theorem translations_handler_zero (translations : option (list Bundle)) (s : State) :
  exists s',
    exec (_translations_handler 0 translations) s = (Done tt, s')
    /\ translations_cache s' = translations_cache s
    /\ calls s' = calls s ++
         (if bool_decide (0 ∈ dom (translations_cache s)) then []
          else [get_presence_localization 0]).
Proof.
  unfold _translations_handler. cbn -[dom].
  destruct (decide (0 ∈ dom (translations_cache s))) as [Hin|Hout].
  - rewrite (bool_decide_eq_false_2 (0 ∉ dom (translations_cache s)))
      by (intros Hn; exact (Hn Hin)).
    rewrite (bool_decide_eq_true_2 _ Hin).
    exists s. split; [reflexivity|]. split; [reflexivity|].
    rewrite app_nil_r. reflexivity.
  - rewrite (bool_decide_eq_true_2 (0 ∉ dom (translations_cache s))) by exact Hout.
    rewrite (bool_decide_eq_false_2 _ Hout).
    eexists. split; [reflexivity|]. split; reflexivity.
Qed.

(** ** The job queue *)

Lemma exec_import_game_stats (game_ids : list Z) (s : State) :
  exec (import_game_stats game_ids) s
  = (Done tt, set_job_list (job_list s ++ map import_game_stats_job game_ids) s).
Proof.
  revert s. induction game_ids as [|g rest IH]; intros s.
  - cbn. rewrite app_nil_r. destruct s; reflexivity.
  - change (exec (import_game_stats (g :: rest)) s)
      with (exec (import_game_stats rest)
              (set_job_list (job_list s ++ [import_game_stats_job g]) s)).
    rewrite IH. destruct s; cbn. rewrite <- app_assoc. reflexivity.
Qed.

(** X13: [import_game_stats] sends nothing: it returns after it has put one
    job per game identifier at the end of the job list, in the order given
    and duplicates included, and changes nothing else; importing a list in
    two parts, one call after the other, queues the same jobs as one call. *)
Theorem import_game_stats_queues (game_ids more : list Z) (s : State) :
  exec (import_game_stats game_ids) s
  = (Done tt, set_job_list (job_list s ++ map import_game_stats_job game_ids) s)
  /\ calls (snd (exec (import_game_stats game_ids) s)) = calls s
  /\ length (job_list (snd (exec (import_game_stats game_ids) s)))
     = (length (job_list s) + length game_ids)%nat
  /\ exec (import_game_stats more) (snd (exec (import_game_stats game_ids) s))
     = exec (import_game_stats (game_ids ++ more)) s.
Proof.
  rewrite !exec_import_game_stats. cbn [snd].
  split; [reflexivity|]. split; [reflexivity|].
  split.
  - cbn [job_list set_job_list]. rewrite length_app, length_map. reflexivity.
  - destruct s; cbn. rewrite map_app, app_assoc. reflexivity.
Qed.

(** X14: one call of [retrieve_collections] queues exactly one job, whether
    it finds the event set and returns at once or suspends; resuming it
    queues nothing more; and neither the call nor its resumption sends a
    request or makes any other call. *)
Theorem retrieve_collections_one_job (s : State) :
  job_list (snd (exec retrieve_collections s)) = job_list s ++ [import_collections_job]
  /\ calls (snd (exec retrieve_collections s)) = calls s
  /\ job_list (snd (exec retrieve_collections_resume s)) = job_list s
  /\ calls (snd (exec retrieve_collections_resume s)) = calls s
  /\ job_list (snd (exec import_game_times s)) = job_list s ++ [import_game_times_job].
Proof.
  rewrite exec_retrieve_collections_resume.
  unfold retrieve_collections. cbn -[retrieve_collections_resume].
  destruct (collections_event s) eqn:Hev.
  - rewrite exec_retrieve_collections_resume.
    repeat (split; [reflexivity|]). reflexivity.
  - repeat (split; [reflexivity|]). reflexivity.
Qed.

(** ** Further properties of the collections rendezvous *)

(** X15: called when the event is already set, [retrieve_collections] does
    not suspend: it returns at once a new dictionary with the payload of the
    slot and leaves the slot empty and the event cleared, so that the next
    call suspends. *)
Theorem retrieve_collections_event_set (s : State) (P : gmap string Z) :
  collections_event s = true ->
  heap s !! collections_collections s = Some P ->
  exists c s',
    exec retrieve_collections s = (Done c, s')
    /\ c <> collections_collections s
    /\ heap s' !! c = Some P
    /\ collections_event s' = false
    /\ heap s' !! collections_collections s' = Some ∅
    /\ job_list s' = job_list s ++ [import_collections_job]
    /\ fst (exec retrieve_collections s') = WaitingEvent retrieve_collections_resume.
Proof.
  intros Hev HP.
  assert (He : exec retrieve_collections s
               = exec retrieve_collections_resume
                   (set_job_list (job_list s ++ [import_collections_job]) s)).
  { unfold retrieve_collections. cbn -[retrieve_collections_resume].
    rewrite Hev. reflexivity. }
  rewrite He, exec_retrieve_collections_resume.
  cbn [heap collections_collections set_job_list].
  rewrite HP. cbn [default].
  set (c := fresh (dom (heap s))).
  set (d := fresh (dom (<[c := P]> (heap s)))).
  assert (Hc : c ∉ dom (heap s)) by apply is_fresh.
  assert (Hd : d ∉ dom (<[c := P]> (heap s))) by apply is_fresh.
  assert (Hdc : d <> c).
  { intros E. apply Hd. rewrite E. apply elem_of_dom. eexists. apply lookup_insert_eq. }
  eexists c, _. split; [reflexivity|].
  cbn [heap collections_event collections_collections job_list
       set_collections_collections set_heap set_collections_event set_job_list].
  split.
  { intros E. apply Hc. rewrite E. apply elem_of_dom. eexists. exact HP. }
  split; [rewrite lookup_insert_ne by exact Hdc; apply lookup_insert_eq|].
  split; [reflexivity|].
  split; [apply lookup_insert_eq|].
  split; [reflexivity|].
  rewrite exec_retrieve_collections_unset by reflexivity. reflexivity.
Qed.

Lemma retrieve_collections_event_set_witness :
  exists c s',
    exec retrieve_collections
      (set_collections_event true
         (set_heap {[0%nat := {["x"%string := 1]}]} new_session)) = (Done c, s')
    /\ heap s' !! c = Some {["x"%string := 1]}
    /\ collections_event s' = false.
Proof.
  assert (Hslot : heap (set_collections_event true
                          (set_heap {[0%nat := {["x"%string := 1]}]} new_session))
                  !! collections_collections
                       (set_collections_event true
                          (set_heap {[0%nat := {["x"%string := 1]}]} new_session))
                  = Some {["x"%string := 1]}) by (vm_compute; reflexivity).
  destruct (retrieve_collections_event_set
              (set_collections_event true
                 (set_heap {[0%nat := {["x"%string := 1]}]} new_session))
              _ eq_refl Hslot)
    as (c & s' & He & _ & Hc & Hev & _).
  exists c, s'. split; [exact He|]. split; [exact Hc|exact Hev].
Defined.

(** X16: consuming a result never writes to a dictionary that exists: the
    two dictionaries it creates, the copy it returns and the new empty
    payload, are new and distinct, and every dictionary of before, the
    copies returned by earlier calls among them, keeps its entries. *)
Theorem retrieve_collections_resume_frame (s : State) :
  exists c s',
    exec retrieve_collections_resume s = (Done c, s')
    /\ (c ∉ dom (heap s))
    /\ (collections_collections s' ∉ dom (heap s))
    /\ collections_collections s' <> c
    /\ dom (heap s') = dom (heap s) ∪ {[c; collections_collections s']}
    /\ (forall l : loc, l ∈ dom (heap s) -> heap s' !! l = heap s !! l)
    /\ friends_cache s' = friends_cache s
    /\ translations_cache s' = translations_cache s
    /\ _auth_lost_handler s' = _auth_lost_handler s
    /\ _login_future s' = _login_future s.
Proof.
  rewrite exec_retrieve_collections_resume.
  set (P := default ∅ (heap s !! collections_collections s)).
  set (c := fresh (dom (heap s))).
  set (d := fresh (dom (<[c := P]> (heap s)))).
  assert (Hc : c ∉ dom (heap s)) by apply is_fresh.
  assert (Hd : d ∉ dom (<[c := P]> (heap s))) by apply is_fresh.
  rewrite dom_insert_L in Hd.
  assert (Hdc : d <> c).
  { intros E. apply Hd. apply elem_of_union. left. apply elem_of_singleton. exact E. }
  assert (Hds : d ∉ dom (heap s)).
  { intros E. apply Hd. apply elem_of_union. right. exact E. }
  eexists c, _. split; [reflexivity|].
  cbn [heap collections_collections friends_cache translations_cache
       _auth_lost_handler _login_future
       set_collections_collections set_heap set_collections_event].
  split; [exact Hc|]. split; [exact Hds|]. split; [exact Hdc|].
  split.
  { rewrite !dom_insert_L. apply set_eq. intros x.
    rewrite !elem_of_union, !elem_of_singleton. tauto. }
  split.
  { intros l Hl. rewrite !lookup_insert_ne; [reflexivity| |].
    - intros E. apply Hc. rewrite E. exact Hl.
    - intros E. apply Hds. rewrite E. exact Hl. }
  repeat (split; [reflexivity|]). reflexivity.
Qed.

Lemma retrieve_collections_resume_frame_witness :
  exists c s',
    exec retrieve_collections_resume new_session = (Done c, s')
    /\ heap s' !! 0%nat = heap new_session !! 0%nat.
Proof.
  destruct (retrieve_collections_resume_frame new_session)
    as (c & s' & He & _ & _ & _ & _ & Hframe & _).
  exists c, s'. split; [exact He|]. apply Hframe.
  cbn. rewrite dom_singleton_L. apply elem_of_singleton. reflexivity.
Defined.

(** ** Events of another state than Friend and None *)

Section OtherRelationship.

Import EFriendRelationship.





End OtherRelationship.



